(** * MagicBook API: page generator, title derivation and story endpoints

    A shallow embedding of [src/schemas.py] and of the story part of
    [src/main.py], and the properties of the specification proved on it.

    Representation choices.
    - A Python [int] is a [Z]; [%] on a positive modulus is [Z.modulo].
    - A Python [str] is a [string] holding its UTF-8 bytes.  The only pattern
      the program searches for, the seven ASCII characters of the theme
      placeholder, cannot start or end inside a multi-byte character, so
      searching bytes and searching code points find the same occurrences.
    - A Python [dict] with string keys is a [gmap string value].
    - An exception is a value of [exn]; code that can raise returns a
      [result].  The endpoints run in a small state-and-error monad over the
      document store and the log of the calls made to it.
    - What the program takes from outside this repository's sources
      ([str.lower], [bson.ObjectId], the [database] helpers) is an interface
      (a type class); every theorem holds for every implementation of it. *)

From Stdlib Require Import Ascii.
From stdpp Require Import base gmap strings list pretty.

#[local] Set Warnings "-register-all".
#[local] Open Scope Z_scope.

(** ** Exceptions and results *)

Inductive exn :=
| IndexError
| ZeroDivisionError
| HTTPException (status_code : Z) (detail : string)
| RequestValidationError
| StoreUnavailable (msg : string).

Inductive result (A : Type) :=
| Ok (a : A)
| Raise (e : exn).
Arguments Ok {A} a.
Arguments Raise {A} e.

(** Sequencing: the first exception raised ends the computation. *)
#[global] Instance result_ret : MRet result := λ A a, Ok a.
#[global] Instance result_bind : MBind result := λ A B k r,
  match r with
  | Ok a => k a
  | Raise e => Raise e
  end.

(** ** Python built-ins used by the program *)

(** [range(a, b)]. *)
Definition py_range (a b : Z) : list Z :=
  (λ k : nat, a + Z.of_nat k) <$> seq 0 (Z.to_nat (b - a)).

(** [l[k]]: a negative index counts from the end, an index out of range
    raises [IndexError]. *)
Definition py_index {A} (l : list A) (k : Z) : result A :=
  let n := Z.of_nat (length l) in
  let k' := if decide (k < 0) then k + n else k in
  if decide (0 ≤ k' < n)
  then match l !! Z.to_nat k' with
       | Some x => Ok x
       | None => Raise IndexError
       end
  else Raise IndexError.

(** [a % b]: the remainder has the sign of [b]; [b = 0] raises. *)
Definition py_mod (a b : Z) : result Z :=
  if decide (b = 0) then Raise ZeroDivisionError else Ok (a `mod` b).

(** [str(n)] and the [{n}] of an f-string for an [int]: the decimal digits,
    after a minus sign for a negative number. *)
Definition str_of_int (n : Z) : string := pretty n.

(** [x or d] for an optional string: [None] and the empty string are falsy. *)
Definition or_default (x : option string) (d : string) : string :=
  match x with
  | None => d
  | Some s => if decide (s = "") then d else s
  end.

(** [s.replace(old, new)]: every occurrence of [old], found from the left
    and not overlapping the one before, becomes [new].  [skip] counts the
    characters of the occurrence just replaced that are still to be passed
    over.  An empty [old] matches before every character and at the end. *)
Fixpoint replace_from (old new : string) (skip : nat) (s : string) : string :=
  match s with
  | EmptyString => if decide (old = "") then new else ""
  | String c s' =>
      match skip with
      | S k => replace_from old new k s'
      | O =>
          if decide (old = "") then new +:+ String c (replace_from old new 0 s')
          else if String.prefix old s
               then new +:+ replace_from old new (String.length old - 1) s'
               else String c (replace_from old new 0 s')
      end
  end.

Definition str_replace (s old new : string) : string :=
  replace_from old new 0 s.

(** [str.lower] comes from the Python runtime. *)
Class StrLower := str_lower : string → string.

(** The lowering of the ASCII letters, every other byte kept: what
    [str.lower] does on a string of ASCII characters, and on the accented
    lower-case letters of the theme table.  It is not [str.lower] on
    capitals outside ASCII, which it leaves as they are; it serves only to
    run the program on themes written in ASCII. *)
Definition ascii_lower_char (c : ascii) : ascii :=
  let n := N_of_ascii c in
  if decide (65 ≤ n ≤ 90)%N then ascii_of_N (n + 32) else c.

Fixpoint ascii_lower (s : string) : string :=
  match s with
  | EmptyString => EmptyString
  | String c s' => String (ascii_lower_char c) (ascii_lower s')
  end.

(** ** src/schemas.py *)

Record StoryRequest := {
  child_name : string;
  age : Z;
  theme : string;
  tone : option string;
  language : string;
  pages : Z
}.

(** The field constraints [ge]/[le] of [StoryRequest]. *)
Definition StoryRequest_valid (req : StoryRequest) : Prop :=
  1 ≤ age req ≤ 12 ∧ 6 ≤ pages req ≤ 20.

Record StoryPage := {
  page_number : Z;
  text : string;
  image_url : string
}.

(** ** Documents and the document store *)

(** [bson.ObjectId]: the twelve bytes of the identifier. *)
Record ObjectId := { binary : list N }.

#[global] Instance ObjectId_eq_dec : EqDecision ObjectId.
Proof. solve_decision. Defined.

(** The values a document holds. *)
Inductive value :=
| VNone
| VInt (n : Z)
| VStr (s : string)
| VObjectId (o : ObjectId)
| VList (l : list value)
| VDict (d : gmap string value).

Abbreviation document := (gmap string value).

(** [bson.ObjectId(s)] raises [InvalidId] for a string it does not accept
    ([None] here); [str(oid)] is the text form of an identifier.  [str(x)]
    on any other value is the runtime's. *)
Class Bson := {
  ObjectId_new : string → option ObjectId;
  py_str : value → string
}.

(** Modelled from the spec: the module [database] ([create_document],
    [get_documents]) is not among the sources.  The spec gives its contract:
    create(collection_name, document) -> identifier, and
    find(collection_name, filter, limit) -> ordered sequence of documents;
    each fails with a store-unavailable condition when the store is
    unavailable.  [db] is the state of the store. *)
Class Database (db : Type) := {
  create_document : string → document → db → result string * db;
  get_documents : string → document → Z → db → result (list document) * db
}.

(** A call made to the store. *)
Inductive store_call :=
| CreateDocument (collection_name : string) (data : document)
| GetDocuments (collection_name : string) (filter_dict : document) (limit : Z).

(** What an endpoint runs against: the store and the calls made so far. *)
Record world (db : Type) := { store : db; calls : list store_call }.
Arguments store {db} w.
Arguments calls {db} w.

(** An endpoint computation: a result and the world after it. *)
Definition M (db A : Type) : Type := world db → result A * world db.

#[global] Instance M_ret {db} : MRet (M db) := λ A a w, (Ok a, w).
#[global] Instance M_bind {db} : MBind (M db) := λ A B k m w,
  match m w with
  | (Ok a, w') => k a w'
  | (Raise e, w') => (Raise e, w')
  end.

Definition raise {db A} (e : exn) : M db A := λ w, (Raise e, w).

Definition lift {db A} (r : result A) : M db A := λ w, (r, w).

(** ** src/main.py: the story generator *)

Section main.
Context {strlower : StrLower} {bson : Bson} {db : Type} {database : Database db}.

Definition themes : gmap string string :=
  {[ "espace" := "L'odyssée stellaire";
     "pirates" := "Le trésor des vagues d'or";
     "jungle" := "Le coeur de la forêt magique";
     "château" := "Le secret du château arc-en-ciel" ]}.

Definition _title_from (req : StoryRequest) : string :=
  let base := default "L'aventure merveilleuse" (themes !! str_lower (theme req)) in
  child_name req +:+ " et " +:+ base.

(** The local [seed] of [_image_for]. *)
Definition _image_seed (theme : string) (page : Z) : string :=
  theme +:+ "-" +:+ str_of_int page.

Definition _image_for (theme : string) (page : Z) : string :=
  let seed := _image_seed theme page in
  "https://picsum.photos/seed/" +:+ seed +:+ "/960/640".

(** The local list [beats] of [_generate_pages]: the six f-strings, with
    [name], [age], [theme] and [tone] already interpolated. *)
Definition beats (name : string) (age : Z) (theme tone : string) : list (Z * string) :=
  [ (1, name +:+ ", " +:+ str_of_int age +:+ " ans, adore l'univers " +:+ theme
        +:+ ". Un soir, une petite lueur vient chuchoter son prénom...");
    (2, "La lueur ouvre un passage secret. " +:+ name
        +:+ " respire doucement, son coeur bat fort mais " +:+ tone +:+ ".");
    (3, "De l'autre côté, un ami apparaît. Ensemble, ils découvrent une mission simple: écouter, aider et oser.");
    (4, "Un petit défi arrive. " +:+ name
        +:+ " inspire, compte jusqu'à trois et trouve une idée lumineuse.");
    (5, "Le monde " +:+ theme +:+ " s'illumine. Tout devient plus doux, plus coloré, et "
        +:+ name +:+ " sourit.");
    (6, "La morale: avec gentillesse et courage, on grandit chaque jour, à son rythme.") ].

(** The body of the [for] loop, for the page indices [idxs] still to come;
    [pages] is the list built so far. *)
Fixpoint pages_loop (bs : list (Z * string)) (theme : string)
    (idxs : list Z) (pages : list StoryPage) : result (list StoryPage) :=
  match idxs with
  | [] => Ok pages
  | i :: rest =>
      base_idx ← py_mod (i - 1) (Z.of_nat (length bs));
      beat ← py_index bs base_idx;
      let text := beat.2 in
      let text := str_replace text "{theme}" theme in
      let page := {| page_number := i; text := text; image_url := _image_for theme i |} in
      pages_loop bs theme rest (pages ++ [page])
  end.

Definition _generate_pages (req : StoryRequest) (total_pages : Z) : result (list StoryPage) :=
  let name := child_name req in
  let age := age req in
  let theme := str_lower (theme req) in
  let tone := or_default (tone req) "doux" in
  let beats := beats name age theme tone in
  pages_loop beats theme (py_range 1 (total_pages + 1)) [].

(** ** src/main.py: the story endpoints *)

Definition call_create_document (collection_name : string) (data : document) : M db string :=
  λ w, let '(r, s) := create_document collection_name data (store w) in
       (r, {| store := s; calls := calls w ++ [CreateDocument collection_name data] |}).

Definition call_get_documents (collection_name : string) (filter_dict : document)
    (limit : Z) : M db (list document) :=
  λ w, let '(r, s) := get_documents collection_name filter_dict limit (store w) in
       (r, {| store := s; calls := calls w ++ [GetDocuments collection_name filter_dict limit] |}).

(** [p.model_dump()] *)
Definition model_dump (p : StoryPage) : value :=
  VDict (list_to_map [ ("page_number", VInt (page_number p));
                       ("text", VStr (text p));
                       ("image_url", VStr (image_url p)) ]).

(** The page count [create_story] resolves from the variant. *)
Definition target_pages_of (req : StoryRequest) (variant : string) : Z :=
  if decide (variant = "preview") then 3 else 6 `max` (pages req `min` 20).

Definition create_story (req : StoryRequest) (variant : string) : M db document :=
  let target_pages := target_pages_of req variant in
  pages ← lift (_generate_pages req target_pages);
  let title := _title_from req in
  let doc : document :=
    list_to_map [ ("title", VStr title);
                  ("child_name", VStr (child_name req));
                  ("age", VInt (age req));
                  ("theme", VStr (theme req));
                  ("tone", VStr (or_default (tone req) "doux"));
                  ("language", VStr (or_default (Some (language req)) "fr"));
                  ("pages", VInt target_pages);
                  ("variant", VStr variant);
                  ("price_cents", VInt 1000);
                  ("pages_data", VList (model_dump <$> pages)) ] in
  story_id ← call_create_document "story" doc;
  let doc := <["id" := VStr story_id]> doc in
  mret doc.

(** The pattern [^(preview|full)$] of the query parameter. *)
Definition variant_pattern (variant : string) : Prop :=
  variant = "preview" ∨ variant = "full".

(** [POST /api/stories]: the framework validates the body against
    [StoryRequest] and the query parameter against its pattern (default
    [preview]), and only then calls [create_story]. *)
Definition post_api_stories (req : StoryRequest) (variant : option string) : M db document :=
  let variant := default "preview" variant in
  if decide (StoryRequest_valid req ∧ variant_pattern variant)
  then create_story req variant
  else raise RequestValidationError.

Definition get_story (story_id : string) : M db document :=
  oid ← match ObjectId_new story_id with
        | Some oid => mret oid
        | None => raise (HTTPException 400 "Invalid story id")
        end;
  docs ← call_get_documents "story" {[ "_id" := VObjectId oid ]} 1;
  match docs with
  | [] => raise (HTTPException 404 "Story not found")
  | doc :: _ =>
      let doc := <["id" := VStr (py_str (default VNone (doc !! "_id")))]> doc in
      let doc := if decide (is_Some (doc !! "_id")) then delete "_id" doc else doc in
      mret doc
  end.

(** The loop of [list_stories] over the documents still to come; [result]
    is the list built so far. *)
Fixpoint list_stories_loop (docs result : list document) : list document :=
  match docs with
  | [] => result
  | d :: rest =>
      let d := <["id" := VStr (py_str (default VNone (d !! "_id")))]> d in
      let d := if decide (is_Some (d !! "_id")) then delete "_id" d else d in
      list_stories_loop rest (result ++ [d])
  end.

Definition list_stories (limit : Z) : M db document :=
  docs ← call_get_documents "story" ∅ limit;
  let result := list_stories_loop docs [] in
  mret {[ "items" := VList (VDict <$> result) ]}.

(** [GET /api/stories]: [limit] is 20 when the query does not give it. *)
Definition get_api_stories (limit : option Z) : M db document :=
  list_stories (default 20 limit).

End main.

(** ** src/main.py: the diagnostic endpoint *)

(** Reading the attribute [name] of the handle: the handle has none, or it
    has a value, or reading it raises an exception with this message. *)
Inductive attribute :=
| NoAttribute
| AttributeValue (s : string)
| AttributeRaises (msg : string).

(** What [test_database] uses of the global [db] when it is not [None]:
    its attribute [name], and [list_collection_names()], which returns the
    names or raises an exception with a message. *)
Record db_handle := {
  db_name : attribute;
  list_collection_names : string + list string
}.

(** A byte that continues a UTF-8 character: 10xxxxxx. *)
Definition utf8_continuation (c : ascii) : bool :=
  bool_decide (128 ≤ N_of_ascii c < 192)%N.

(** [s[:n]]: the first [n] characters of [s]. *)
Fixpoint utf8_take (n : nat) (s : string) : string :=
  match s with
  | EmptyString => EmptyString
  | String c s' =>
      if utf8_continuation c then String c (utf8_take n s')
      else match n with
           | O => EmptyString
           | S n' => String c (utf8_take n' s')
           end
  end.

(** [len(s)]: the number of characters of [s]. *)
Fixpoint utf8_length (s : string) : nat :=
  match s with
  | EmptyString => O
  | String c s' => if utf8_continuation c then utf8_length s' else S (utf8_length s')
  end.

(** [os.getenv(k)] as a condition: set, and not empty. *)
Definition getenv_truthy (env : gmap string string) (k : string) : bool :=
  match env !! k with
  | Some v => bool_decide (v ≠ "")
  | None => false
  end.

(** The body of the outer [try] of [test_database]: the response it leaves,
    and the message of the exception that ended it, if one did. *)
Definition test_database_try (db : option db_handle) (response : document)
    : document * option string :=
  match db with
  | Some h =>
      let response := <["database" := VStr "✅ Available"]> response in
      let response := <["database_url" := VStr "✅ Configured"]> response in
      match db_name h with
      | AttributeRaises msg => (response, Some msg)
      | name =>
          let name := match name with AttributeValue s => s | _ => "✅ Connected" end in
          let response := <["database_name" := VStr name]> response in
          let response := <["connection_status" := VStr "Connected"]> response in
          match list_collection_names h with
          | inr collections =>
              let response := <["collections" := VList (VStr <$> take 10 collections)]> response in
              (<["database" := VStr "✅ Connected & Working"]> response, None)
          | inl msg =>
              (<["database" := VStr ("⚠️  Connected but Error: " +:+ utf8_take 50 msg)]> response, None)
          end
      end
  | None => (<["database" := VStr "⚠️  Available but not initialized"]> response, None)
  end.

Definition test_database (db : option db_handle) (env : gmap string string) : document :=
  let response : document :=
    list_to_map [ ("backend", VStr "✅ Running");
                  ("database", VStr "❌ Not Available");
                  ("database_url", VNone);
                  ("database_name", VNone);
                  ("connection_status", VStr "Not Connected");
                  ("collections", VList []) ] in
  let response :=
    match test_database_try db response with
    | (response, None) => response
    | (response, Some msg) => <["database" := VStr ("❌ Error: " +:+ utf8_take 50 msg)]> response
    end in
  let response :=
    <["database_url" := VStr (if getenv_truthy env "DATABASE_URL" then "✅ Set" else "❌ Not Set")]>
      response in
  let response :=
    <["database_name" := VStr (if getenv_truthy env "DATABASE_NAME" then "✅ Set" else "❌ Not Set")]>
      response in
  response.

(** ** A reference implementation of the interfaces

    Used to run the program on concrete requests.  [ascii_lower] stands for
    [str.lower]; identifiers are the strings of 24 hexadecimal digits; the
    store is a list of documents in memory. *)

Definition hex_digit (c : ascii) : option N :=
  let n := N_of_ascii c in
  if decide (48 ≤ n ≤ 57)%N then Some (n - 48)%N
  else if decide (97 ≤ n ≤ 102)%N then Some (n - 87)%N
  else if decide (65 ≤ n ≤ 70)%N then Some (n - 55)%N
  else None.

Fixpoint hex_bytes (s : string) : option (list N) :=
  match s with
  | EmptyString => Some []
  | String a (String b s') =>
      hi ← hex_digit a; lo ← hex_digit b; rest ← hex_bytes s';
      Some ((hi * 16 + lo)%N :: rest)
  | String _ EmptyString => None
  end.

Definition hex_char (n : N) : ascii :=
  if decide (n < 10)%N then ascii_of_N (48 + n) else ascii_of_N (87 + n).

Fixpoint hex_of_bytes (l : list N) : string :=
  match l with
  | [] => EmptyString
  | b :: l' => String (hex_char (b / 16)) (String (hex_char (b `mod` 16)) (hex_of_bytes l'))
  end.

(** Accepts the strings of 24 hexadecimal digits, and no other.  The
    library's constructor accepts a few more strings of 24 characters (it
    passes over white space between bytes); none is used here. *)
Definition hex_ObjectId_new (s : string) : option ObjectId :=
  if decide (String.length s = 24%nat)
  then b ← hex_bytes s; Some {| binary := b |}
  else None.

(** [str] on the scalar values; a container is shown by its brackets only. *)
Definition scalar_str (v : value) : string :=
  match v with
  | VNone => "None"
  | VInt n => str_of_int n
  | VStr s => s
  | VObjectId o => hex_of_bytes (binary o)
  | VList _ => "[...]"
  | VDict _ => "{...}"
  end.

Definition hex_bson : Bson :=
  {| ObjectId_new := hex_ObjectId_new; py_str := scalar_str |}.

Record mem_db := {
  available : bool;
  stored : list (string * document);
  next_id : N
}.

(** The [k] low bytes of [n], most significant first. *)
Fixpoint be_bytes (k : nat) (n : N) : list N :=
  match k with
  | O => []
  | S k' => be_bytes k' (n / 256)%N ++ [(n `mod` 256)%N]
  end.

Definition scalar_eqb (a b : value) : bool :=
  match a, b with
  | VNone, VNone => true
  | VInt x, VInt y => bool_decide (x = y)
  | VStr x, VStr y => bool_decide (x = y)
  | VObjectId x, VObjectId y => bool_decide (x = y)
  | _, _ => false
  end.

(** A filter matches a document that has each of its fields, with an equal
    scalar value. *)
Definition mem_matches (filter_dict d : document) : bool :=
  forallb (λ kv, match d !! kv.1 with
                 | Some v => scalar_eqb kv.2 v
                 | None => false
                 end) (map_to_list filter_dict).

Definition mem_create (c : string) (d : document) (s : mem_db) : result string * mem_db :=
  if available s
  then let oid := {| binary := be_bytes 12 (next_id s) |} in
       (Ok (hex_of_bytes (binary oid)),
        {| available := true;
           stored := stored s ++ [(c, <["_id" := VObjectId oid]> d)];
           next_id := (next_id s + 1)%N |})
  else (Raise (StoreUnavailable "Database not available"), s).

Definition mem_find (c : string) (filter_dict : document) (limit : Z) (s : mem_db)
    : result (list document) * mem_db :=
  if available s
  then let found := List.filter (mem_matches filter_dict)
                      (snd <$> List.filter (λ cd, bool_decide (cd.1 = c)) (stored s)) in
       (Ok (if decide (0 < limit) then take (Z.to_nat limit) found else found), s)
  else (Raise (StoreUnavailable "Database not available"), s).

Definition mem_database : Database mem_db :=
  {| create_document := mem_create; get_documents := mem_find |}.

Definition empty_world : world mem_db :=
  {| store := {| available := true; stored := []; next_id := 1 |}; calls := [] |}.

Definition down_world : world mem_db :=
  {| store := {| available := false; stored := []; next_id := 1 |}; calls := [] |}.

(** The request of the end-to-end scenarios. *)
Definition lea : StoryRequest :=
  {| child_name := "Léa"; age := 5; theme := "pirates"; tone := Some "doux";
     language := "fr"; pages := 12 |}.

(** A request with no tone, an empty language and a theme outside the table. *)
Definition tom : StoryRequest :=
  {| child_name := "Tom"; age := 7; theme := "Dinosaures"; tone := None;
     language := ""; pages := 6 |}.

(** The endpoints over the reference implementation. *)
Definition ref_create_story : StoryRequest → string → M mem_db document :=
  create_story (strlower := ascii_lower) (database := mem_database).

Definition ref_post_api_stories : StoryRequest → option string → M mem_db document :=
  post_api_stories (strlower := ascii_lower) (database := mem_database).

Definition ref_get_story : string → M mem_db document :=
  get_story (bson := hex_bson) (database := mem_database).

(** Reading the outcome of a run: the field [k] of the document it
    returned, the exception it raised, and whether it returned. *)
Definition returned_field {db} (run : result document * world db) (k : string) : option value :=
  match run.1 with
  | Ok doc => doc !! k
  | Raise _ => None
  end.

Definition raised {db A} (run : result A * world db) : option exn :=
  match run.1 with
  | Ok _ => None
  | Raise e => Some e
  end.

Definition returns {db A} (run : result A * world db) : bool :=
  match run.1 with
  | Ok _ => true
  | Raise _ => false
  end.

(** ** The specification's own words *)

(** clamp(x, minimum, maximum) *)
Definition clamp (x lo hi : Z) : Z :=
  if decide (x < lo) then lo else if decide (hi < x) then hi else x.

(** The four known themes and the subtitle of each; the generic subtitle
    for any other (lowercased) theme. *)
Definition known_themes : list string := ["espace"; "pirates"; "jungle"; "château"].

Definition subtitle_of (lowered : string) : string :=
  if decide (lowered = "espace") then "L'odyssée stellaire"
  else if decide (lowered = "pirates") then "Le trésor des vagues d'or"
  else if decide (lowered = "jungle") then "Le coeur de la forêt magique"
  else if decide (lowered = "château") then "Le secret du château arc-en-ciel"
  else "L'aventure merveilleuse".

(** The beats of a request, as [_generate_pages] builds them once, before
    the loop over the pages. *)
Definition beats_of {strlower : StrLower} (req : StoryRequest) : list (Z * string) :=
  beats (child_name req) (age req) (str_lower (theme req)) (or_default (tone req) "doux").

(** The page the spec describes at index [i], given the list of beats and
    the lowercased theme: the text of the beat at position (i-1) mod 6 with
    the placeholder replaced, and the image of (theme, i). *)
Definition page_at (bs : list (Z * string)) (theme : string) (i : Z) : StoryPage :=
  {| page_number := i;
     text := str_replace (default (0, "") (bs !! Z.to_nat ((i - 1) `mod` 6))).2 "{theme}" theme;
     image_url := _image_for theme i |}.

(** [old] occurs in [s]. *)
Definition occurs (old s : string) : Prop :=
  ∃ a b, s = a +:+ old +:+ b.

(** [old] stands at the start of [s]. *)
Definition starts_with (old s : string) : Prop :=
  ∃ r, s = old +:+ r.

(** [replaced old new s t]: [t] is [s] with every occurrence of [old]
    replaced by [new], the occurrences being taken from the left and not
    overlapping.  Either [old] does not occur in [s] and [t] is [s]; or
    [s] is [a], then the leftmost occurrence of [old] (no occurrence
    starts inside [a]), then [b], and [t] is [a], then [new], then [b]
    with its occurrences replaced. *)
Inductive replaced (old new : string) : string → string → Prop :=
| replaced_absent s :
    ¬ occurs old s → replaced old new s s
| replaced_leftmost a b t :
    (∀ a1 a2, a = a1 +:+ a2 → a2 ≠ "" → ¬ starts_with old (a2 +:+ old +:+ b)) →
    replaced old new b t →
    replaced old new (a +:+ old +:+ b) (a +:+ new +:+ t).

(** A store that holds one story, and the endpoints that read it. *)
Definition first_oid : ObjectId :=
  {| binary := [0; 0; 0; 0; 0; 0; 0; 0; 0; 0; 0; 1]%N |}.

Definition stored_story : document :=
  {[ "_id" := VObjectId first_oid; "child_name" := VStr "Léa"; "pages" := VInt 3 ]}.

Definition one_story_world : world mem_db :=
  {| store := {| available := true; stored := [("story", stored_story)]; next_id := 2 |};
     calls := [] |}.

Definition ref_list_stories : Z → M mem_db document :=
  list_stories (bson := hex_bson) (database := mem_database).

(** The handle is there, and reading it raises nothing. *)
Definition handle_works (db : option db_handle) (names : list string) : Prop :=
  ∃ h, db = Some h ∧ (∀ msg, db_name h ≠ AttributeRaises msg) ∧
       list_collection_names h = inr names.

(** The fields of the response of [test_database]. *)
Definition response_fields : list string :=
  [ "backend"; "database"; "database_url"; "database_name";
    "connection_status"; "collections" ].

(** A string without the character [-]. *)
Fixpoint dash_free (s : string) : Prop :=
  match s with
  | EmptyString => True
  | String c s' => c ≠ "-"%char ∧ dash_free s'
  end.

(** What [get_story] and [list_stories] return for a stored document: the
    field [id] holds the text of its [_id], and the field [_id] is gone. *)
Definition with_id {bson : Bson} (d : document) : document :=
  delete "_id" (<["id" := VStr (py_str (default VNone (d !! "_id")))]> d).

(** A handle that lists [names], and one whose listing raises [msg]. *)
Definition listing_handle (names : list string) : db_handle :=
  {| db_name := AttributeValue "magicbook"; list_collection_names := inr names |}.

Definition failing_handle (msg : string) : db_handle :=
  {| db_name := AttributeValue "magicbook"; list_collection_names := inl msg |}.

(** * Properties *)

(** ** Built-ins *)

Lemma py_range_from_1 (n : Z) :
  py_range 1 (n + 1) = Z.of_nat <$> seq 1 (Z.to_nat n).
Proof.
  unfold py_range. replace (n + 1 - 1) with n by lia.
  generalize (Z.to_nat n) as k. intros k.
  rewrite <- (fmap_S_seq 0 k), <- list_fmap_compose.
  apply list_fmap_ext. intros _ j _. simpl. lia.
Qed.

Lemma py_mod_pos (a b : Z) : 0 < b → py_mod a b = Ok (a `mod` b).
Proof. intros Hb. unfold py_mod. case_decide; [lia | done]. Qed.

Lemma py_index_in_range {A} (l : list A) (k : Z) :
  0 ≤ k < Z.of_nat (length l) →
  ∃ x, l !! Z.to_nat k = Some x ∧ py_index l k = Ok x.
Proof.
  intros Hk. destruct (lookup_lt_is_Some_2 l (Z.to_nat k)) as [x Hx]; [lia |].
  exists x. split; [done |]. unfold py_index.
  destruct (decide (k < 0)) as [|_]; [lia |].
  destruct (decide _) as [_|]; [| lia]. by rewrite Hx.
Qed.

Lemma string_app_length (a b : string) :
  String.length (a +:+ b) = (String.length a + String.length b)%nat.
Proof. induction a as [| c a IH]; simpl; [done | by rewrite IH]. Qed.

(** Appending the same text to two strings keeps them apart. *)
Lemma string_app_inv_tail (a b t : string) : a +:+ t = b +:+ t → a = b.
Proof.
  revert b. induction a as [| c a IH]; intros [| d b] Heq.
  - done.
  - apply (f_equal String.length) in Heq.
    rewrite !string_app_length in Heq. simpl in Heq. lia.
  - apply (f_equal String.length) in Heq.
    rewrite !string_app_length in Heq. simpl in Heq. lia.
  - change (String c (a +:+ t) = String d (b +:+ t)) in Heq.
    injection Heq as -> Heq. f_equal. by apply IH.
Qed.

Lemma prefix_app (old s : string) :
  String.prefix old s = true → ∃ b, s = old +:+ b.
Proof.
  revert s. induction old as [| a old IH]; intros s Hp.
  - by exists s.
  - destruct s as [| c s]; simpl in Hp; [done |].
    destruct (ascii_dec a c) as [-> |]; [| done].
    destruct (IH s Hp) as [b ->]. by exists b.
Qed.

(** Replacing a pattern that does not occur changes nothing. *)
Lemma str_replace_absent (s old new : string) :
  old ≠ "" → ¬ occurs old s → str_replace s old new = s.
Proof.
  intros Hne. unfold str_replace.
  induction s as [| c s IH]; intros Hno; cbn [replace_from].
  - by rewrite decide_False.
  - rewrite decide_False by done.
    destruct (String.prefix old (String c s)) eqn:Hp.
    + destruct (prefix_app _ _ Hp) as [b Hb].
      destruct Hno. exists "", b. by rewrite Hb.
    + f_equal. apply IH. intros (a & b & ->).
      apply Hno. by exists (String c a), b.
Qed.

Lemma starts_with_prefix (old s : string) :
  starts_with old s → String.prefix old s = true.
Proof.
  intros [r ->]. induction old as [| c old IH]; [by destruct r |].
  change (String.prefix (String c old) (String c (old +:+ r)) = true). simpl.
  by destruct (ascii_dec c c).
Qed.

(** The characters of an occurrence just replaced are passed over. *)
Lemma replace_from_skip (old new x b : string) :
  replace_from old new (String.length x) (x +:+ b) = replace_from old new 0 b.
Proof.
  induction x as [| c x IH]; [done |].
  change (replace_from old new (S (String.length x)) (String c (x +:+ b))
          = replace_from old new 0 b).
  exact IH.
Qed.

Lemma occurs_length (old s : string) :
  occurs old s → (String.length old ≤ String.length s)%nat.
Proof. intros (a & b & ->). rewrite !string_app_length. lia. Qed.

Lemma replaced_cons (old new : string) (c : ascii) (s t : string) :
  String.prefix old (String c s) = false →
  replaced old new s t →
  replaced old new (String c s) (String c t).
Proof.
  intros Hp Hrep. destruct Hrep as [s Hno | a b t Hleft Hrep].
  - apply replaced_absent. intros ([| c' a] & b & Heq).
    + rewrite starts_with_prefix in Hp; [done |]. by exists b.
    + change (String c s = String c' (a +:+ old +:+ b)) in Heq.
      injection Heq as _ ->. apply Hno. by exists a, b.
  - change (replaced old new (String c a +:+ old +:+ b) (String c a +:+ new +:+ t)).
    apply replaced_leftmost; [| done].
    intros [| c1 a1] a2 Heq Hne Hstart.
    + change (String c a = a2) in Heq. subst a2.
      pose proof (starts_with_prefix _ _ Hstart) as Hp'.
      change (String.prefix old (String c (a +:+ old +:+ b)) = true) in Hp'.
      congruence.
    + change (String c a = String c1 (a1 +:+ a2)) in Heq.
      injection Heq as _ ->. by apply (Hleft a1 a2).
Qed.

(** [str_replace] replaces every occurrence, leftmost first. *)
Lemma str_replace_replaced (s old new : string) :
  old ≠ "" → replaced old new s (str_replace s old new).
Proof.
  intros Hne. unfold str_replace.
  remember (String.length s) as k eqn:Hk. revert s Hk.
  induction (lt_wf k) as [k _ IH]. intros s Hk.
  destruct s as [| c s]; cbn [replace_from]; rewrite decide_False by done.
  - apply replaced_absent. intros Hocc%occurs_length.
    destruct old; [done | simpl in Hocc; lia].
  - destruct (String.prefix old (String c s)) eqn:Hp.
    + destruct (prefix_app _ _ Hp) as [b Hb].
      destruct old as [| c0 old]; [done |].
      change (String c s = String c0 (old +:+ b)) in Hb. injection Hb as -> ->.
      change (String.length (String c0 old) - 1)%nat with (String.length old - 0)%nat.
      rewrite Nat.sub_0_r, replace_from_skip.
      apply (replaced_leftmost (String c0 old) new "" b).
      * intros a1 a2 Heq Ha2. by destruct a1, a2.
      * apply (IH (String.length b)); [| done].
        subst k. simpl. rewrite string_app_length. lia.
    + apply replaced_cons; [done |].
      apply (IH (String.length s)); [| done]. subst k. simpl. lia.
Qed.

Lemma string_app_split (a x a' y : string) :
  a +:+ x = a' +:+ y →
  ∃ m, (a' = a +:+ m ∧ x = m +:+ y) ∨ (a = a' +:+ m ∧ y = m +:+ x).
Proof.
  revert a'. induction a as [| c a IH]; intros a' Heq.
  - exists a'. left. by split.
  - destruct a' as [| c' a'].
    + exists (String c a). right. by split.
    + change (String c (a +:+ x) = String c' (a' +:+ y)) in Heq.
      injection Heq as -> Heq. destruct (IH a' Heq) as [m [[-> ->] | [-> ->]]];
        exists m; [left | right]; by split.
Qed.

Lemma string_app_nil_r (a : string) : a +:+ "" = a.
Proof.
  induction a as [| c a IH]; [done |].
  change (String c (a +:+ "") = String c a). by rewrite IH.
Qed.

(** The relation leaves one result only. *)
Lemma replaced_unique (old new s t1 t2 : string) :
  replaced old new s t1 → replaced old new s t2 → t1 = t2.
Proof.
  intros H1. revert t2.
  induction H1 as [s Hno | a b t Hleft Hrep IH]; intros t2 H2.
  - destruct H2 as [s _ | a' b' t' _ _]; [done |].
    destruct Hno. by exists a', b'.
  - remember (a +:+ old +:+ b) as s eqn:Hs.
    destruct H2 as [s Hno | a' b' t' Hleft' Hrep'].
    { destruct Hno. by exists a, b. }
    destruct (string_app_split a' (old +:+ b') a (old +:+ b) Hs)
      as [m [[Ha Hm] | [Ha Hm]]].
    + destruct m as [| c m].
      * change (old +:+ b' = old +:+ b) in Hm. apply String.app_inj in Hm.
        rewrite string_app_nil_r in Ha. subst a' b'. by rewrite (IH _ Hrep').
      * destruct (Hleft a' (String c m) Ha); [done |]. by exists b'.
    + destruct m as [| c m].
      * change (old +:+ b = old +:+ b') in Hm. apply String.app_inj in Hm.
        rewrite string_app_nil_r in Ha. subst a' b'. by rewrite (IH _ Hrep').
      * destruct (Hleft' a (String c m) Ha); [done |]. by exists b.
Qed.

(** ** The page generator *)

Lemma beats_length name age theme tone : length (beats name age theme tone) = 6%nat.
Proof. reflexivity. Qed.

(** The loop never raises, and appends the page of each index in turn. *)
Lemma pages_loop_closed bs theme idxs acc :
  length bs = 6%nat →
  pages_loop bs theme idxs acc = Ok (acc ++ (page_at bs theme <$> idxs)).
Proof.
  intros Hlen. revert acc.
  induction idxs as [| i rest IH]; intros acc; simpl.
  - by rewrite app_nil_r.
  - rewrite Hlen. change (Z.of_nat 6) with 6.
    rewrite py_mod_pos by lia. simpl.
    destruct (py_index_in_range bs ((i - 1) `mod` 6)) as (beat & Hbeat & ->).
    { rewrite Hlen. change (Z.of_nat 6) with 6. pose proof (Z.mod_pos_bound (i - 1) 6). lia. }
    simpl. rewrite IH, <- app_assoc. simpl.
    unfold page_at at 2. by rewrite Hbeat.
Qed.

Section generator_properties.
Context {strlower : StrLower}.

Lemma generate_pages_closed req n :
  _generate_pages req n =
  Ok (page_at (beats_of req) (str_lower (theme req)) <$> (Z.of_nat <$> seq 1 (Z.to_nat n))).
Proof.
  unfold _generate_pages. rewrite pages_loop_closed by apply beats_length.
  by rewrite py_range_from_1.
Qed.

Lemma generate_pages_lookup req n i :
  1 ≤ i ≤ n →
  ∃ pages, _generate_pages req n = Ok pages ∧
    pages !! Z.to_nat (i - 1) = Some (page_at (beats_of req) (str_lower (theme req)) i).
Proof.
  intros Hi. eexists. split; [apply generate_pages_closed |].
  rewrite !list_lookup_fmap, lookup_seq_lt by lia. simpl. f_equal. f_equal. lia.
Qed.

(** C8: the page generator is total: for any theme, child name, optional
    tone, age and page count (in range or not) it returns a list of pages;
    neither the modulus nor the indexing of the beats can raise. *)
Theorem generate_pages_total req n :
  ∃ pages, _generate_pages req n = Ok pages.
Proof. eexists. apply generate_pages_closed. Qed.

(** C1: for a page count [n >= 0] the generator returns exactly [n] pages,
    and their page numbers are 1, 2, ..., n in this order. *)
Theorem generate_pages_count_and_numbers req n :
  0 ≤ n →
  ∃ pages, _generate_pages req n = Ok pages ∧
    Z.of_nat (length pages) = n ∧
    page_number <$> pages = Z.of_nat <$> seq 1 (Z.to_nat n).
Proof.
  intros Hn. eexists. split; [apply generate_pages_closed |]. split.
  - rewrite !length_fmap, length_seq. lia.
  - rewrite <- !list_fmap_compose. apply list_fmap_ext. by intros.
Qed.

(** C2: beat selection has period 6: when pages [i] and [i + 6] both exist
    (1 <= i, i + 6 <= n, so n > 6), both pages are returned and their texts
    are equal. *)
Theorem beat_cycle_period_6 req n i :
  6 < n → 1 ≤ i → i + 6 ≤ n →
  ∃ pages p q,
    _generate_pages req n = Ok pages ∧
    pages !! Z.to_nat (i - 1) = Some p ∧
    pages !! Z.to_nat (i + 6 - 1) = Some q ∧
    page_number p = i ∧ page_number q = i + 6 ∧
    text p = text q.
Proof.
  intros _ Hi Hn.
  destruct (generate_pages_lookup req n i) as (pages & Hgen & Hp); [lia |].
  destruct (generate_pages_lookup req n (i + 6)) as (pages' & Hgen' & Hq); [lia |].
  rewrite Hgen in Hgen'. injection Hgen' as <-.
  exists pages, (page_at (beats_of req) (str_lower (theme req)) i),
    (page_at (beats_of req) (str_lower (theme req)) (i + 6)).
  split_and!; try done. simpl.
  replace (i + 6 - 1) with (i - 1 + 1 * 6) by lia.
  by rewrite Z_mod_plus_full.
Qed.

(** C7: the text of page [i] (1 <= i <= total_pages) is the beat at
    position (i-1) mod 6 with the placeholder replaced by the lowercased
    theme.  The six beats are the six sentences below, in this order, with
    the child's name, the age in decimal, the lowercased theme and the tone
    ("doux" when absent or empty) already in them: they are built from the
    request alone, before the loop, and do not depend on the page.  The
    replacement is the only thing done per page: every occurrence of the
    placeholder in the finished beat, leftmost first and not overlapping,
    becomes the lowercased theme, and this leaves exactly one text; a beat
    in which the placeholder does not occur is the page text as it is. *)
Theorem page_text_is_beat_with_theme req n i :
  1 ≤ i ≤ n →
  let name := child_name req in
  let years := str_of_int (age req) in
  let lowered := str_lower (theme req) in
  let manner := match tone req with
                | Some t => if decide (t = "") then "doux" else t
                | None => "doux"
                end in
  ∃ pages p beat,
    _generate_pages req n = Ok pages ∧
    pages !! Z.to_nat (i - 1) = Some p ∧
    page_number p = i ∧
    beats_of req !! Z.to_nat ((i - 1) `mod` 6) = Some beat ∧
    [ (1, name +:+ ", " +:+ years +:+ " ans, adore l'univers " +:+ lowered
          +:+ ". Un soir, une petite lueur vient chuchoter son prénom...");
      (2, "La lueur ouvre un passage secret. " +:+ name
          +:+ " respire doucement, son coeur bat fort mais " +:+ manner +:+ ".");
      (3, "De l'autre côté, un ami apparaît. Ensemble, ils découvrent une mission simple: écouter, aider et oser.");
      (4, "Un petit défi arrive. " +:+ name
          +:+ " inspire, compte jusqu'à trois et trouve une idée lumineuse.");
      (5, "Le monde " +:+ lowered
          +:+ " s'illumine. Tout devient plus doux, plus coloré, et "
          +:+ name +:+ " sourit.");
      (6, "La morale: avec gentillesse et courage, on grandit chaque jour, à son rythme.") ]
      !! Z.to_nat ((i - 1) `mod` 6) = Some beat ∧
    text p = str_replace beat.2 "{theme}" lowered ∧
    replaced "{theme}" lowered beat.2 (text p) ∧
    (∀ t, replaced "{theme}" lowered beat.2 t → t = text p) ∧
    (¬ occurs "{theme}" beat.2 → text p = beat.2).
Proof.
  intros Hi name years lowered manner.
  destruct (generate_pages_lookup req n i) as (pages & Hgen & Hp); [done |].
  destruct (lookup_lt_is_Some_2 (beats_of req) (Z.to_nat ((i - 1) `mod` 6)))
    as [beat Hbeat].
  { unfold beats_of. rewrite beats_length.
    pose proof (Z.mod_pos_bound (i - 1) 6). lia. }
  assert (text (page_at (beats_of req) lowered i) = str_replace beat.2 "{theme}" lowered)
    as Htext.
  { unfold page_at. cbn [text]. by rewrite Hbeat. }
  exists pages, (page_at (beats_of req) lowered i), beat.
  split_and!; try done.
  - rewrite Htext. by apply str_replace_replaced.
  - intros t Ht. rewrite Htext.
    apply (replaced_unique "{theme}" lowered beat.2); [done |].
    by apply str_replace_replaced.
  - intros Hno. rewrite Htext. by apply str_replace_absent.
Qed.

End generator_properties.

(** ** Image URL and title *)

(** C5: the image URL is the placeholder-service URL of the seed
    "{theme}-{page}" with dimensions 960x640; it depends on the theme and the
    page index alone, and for one theme two different page indices give
    different seeds and different URLs. *)
Theorem image_for_deterministic theme i j :
  _image_for theme i =
    "https://picsum.photos/seed/" +:+ (theme +:+ "-" +:+ str_of_int i) +:+ "/960/640" ∧
  _image_seed theme i = theme +:+ "-" +:+ str_of_int i ∧
  (i ≠ j → _image_seed theme i ≠ _image_seed theme j ∧
           _image_for theme i ≠ _image_for theme j).
Proof.
  split_and!; [done | done |]. intros Hij.
  assert (_image_seed theme i ≠ _image_seed theme j) as Hseed.
  { unfold _image_seed. intros Heq.
    apply String.app_inj in Heq. apply (String.app_inj "-") in Heq.
    apply Hij. by apply (inj pretty). }
  split; [done |]. unfold _image_for. intros Heq.
  apply String.app_inj in Heq. by apply string_app_inv_tail in Heq.
Qed.

Lemma themes_lookup_other (k : string) :
  k ∉ known_themes → themes !! k = None.
Proof.
  unfold known_themes, themes. rewrite !not_elem_of_cons.
  intros (? & ? & ? & ? & _).
  by rewrite !lookup_insert_ne, lookup_singleton_ne.
Qed.

Section title_properties.
Context {strlower : StrLower}.

(** C4: the title is "{child_name} et {subtitle}", where the subtitle is
    the phrase of the lowercased theme when that is one of the four known
    themes, and "L'aventure merveilleuse" for every other theme. *)
Theorem title_from_theme req :
  _title_from req = child_name req +:+ " et " +:+ subtitle_of (str_lower (theme req)) ∧
  (str_lower (theme req) ∉ known_themes →
   _title_from req = child_name req +:+ " et " +:+ "L'aventure merveilleuse").
Proof.
  unfold _title_from, subtitle_of.
  generalize (str_lower (theme req)) as k. intros k. split.
  - repeat case_decide; subst; try reflexivity.
    rewrite themes_lookup_other; [done |].
    unfold known_themes. rewrite !not_elem_of_cons.
    split_and!; try done. apply not_elem_of_nil.
  - intros Hk. by rewrite themes_lookup_other.
Qed.

End title_properties.

(** ** Story creation *)

Lemma clamp_max_min (x : Z) : 6 `max` (x `min` 20) = clamp x 6 20.
Proof. unfold clamp. repeat case_decide; lia. Qed.

Section endpoint_properties.
Context {strlower : StrLower} {bson : Bson} {db : Type} {database : Database db}.

(** What a successful [create_story] has done: generated the pages of the
    resolved count, assembled the document, made one call to the store, and
    returned the document with the identifier the store gave. *)
Lemma create_story_inv req variant (w w' : world db) doc :
  create_story req variant w = (Ok doc, w') →
  ∃ pages d story_id s',
    _generate_pages req (target_pages_of req variant) = Ok pages ∧
    create_document "story" d (store w) = (Ok story_id, s') ∧
    w' = {| store := s'; calls := calls w ++ [CreateDocument "story" d] |} ∧
    doc = <["id" := VStr story_id]> d ∧
    d !! "title" = Some (VStr (_title_from req)) ∧
    d !! "tone" = Some (VStr (or_default (tone req) "doux")) ∧
    d !! "language" = Some (VStr (or_default (Some (language req)) "fr")) ∧
    d !! "pages" = Some (VInt (target_pages_of req variant)) ∧
    d !! "variant" = Some (VStr variant) ∧
    d !! "price_cents" = Some (VInt 1000) ∧
    d !! "pages_data" = Some (VList (model_dump <$> pages)).
Proof.
  unfold create_story, mbind, M_bind, lift, call_create_document.
  rewrite generate_pages_closed.
  set (pages := page_at _ _ <$> _).
  match goal with |- context [create_document "story" ?d0 (store w)] => set (d := d0) end.
  destruct (create_document "story" d (store w)) as [[story_id | e] s'] eqn:Hstore;
    intros Heq; [| done].
  injection Heq as <- <-.
  exists pages, d, story_id, s'. split_and!; reflexivity || done.
Qed.

Lemma target_pages_nonneg req variant : 0 ≤ target_pages_of req variant.
Proof. unfold target_pages_of. case_decide; lia. Qed.

(** [create_story] raises only what the store raises. *)
Lemma create_story_raises_only_from_store req variant (w w' : world db) e :
  create_story req variant w = (Raise e, w') →
  ∃ d s', create_document "story" d (store w) = (Raise e, s').
Proof.
  unfold create_story, mbind, M_bind, lift, call_create_document.
  rewrite generate_pages_closed.
  match goal with |- context [create_document "story" ?d0 (store w)] => set (d := d0) end.
  destruct (create_document "story" d (store w)) as [[story_id | e'] s'] eqn:Hstore;
    intros Heq; [done |].
  injection Heq as -> <-. by exists d, s'.
Qed.

(** C3: the page count a created story resolves is 3 for the variant
    "preview", whatever the requested pages, and clamp(pages, 6, 20) for the
    variant "full"; the story's [pages] field holds this count, and
    [pages_data] has as many pages. *)
Theorem create_story_page_count req variant (w w' : world db) doc :
  create_story req variant w = (Ok doc, w') →
  ∃ n pages_data,
    doc !! "pages" = Some (VInt n) ∧
    doc !! "pages_data" = Some (VList pages_data) ∧
    Z.of_nat (length pages_data) = n ∧
    (variant = "preview" → n = 3) ∧
    (variant = "full" → n = clamp (pages req) 6 20).
Proof.
  intros Hrun.
  destruct (create_story_inv _ _ _ _ _ Hrun)
    as (pages & d & story_id & s' & Hgen & _ & _ & -> & _ & _ & _ & Hp & _ & _ & Hpd).
  exists (target_pages_of req variant), (model_dump <$> pages).
  rewrite !lookup_insert_ne by done. split_and!; [done | done | | |].
  - rewrite generate_pages_closed in Hgen. injection Hgen as <-.
    rewrite !length_fmap, length_seq. pose proof (target_pages_nonneg req variant). lia.
  - intros ->. reflexivity.
  - intros ->. unfold target_pages_of. rewrite decide_False by done.
    apply clamp_max_min.
Qed.

(** C9: a story created through the endpoint has [price_cents] 1000 and
    its [variant] field is the requested variant (the default "preview"
    when none is given), which is "preview" or "full". *)
Theorem created_story_price_and_variant req variant (w w' : world db) doc :
  post_api_stories req variant w = (Ok doc, w') →
  doc !! "price_cents" = Some (VInt 1000) ∧
  doc !! "variant" = Some (VStr (default "preview" variant)) ∧
  (default "preview" variant = "preview" ∨ default "preview" variant = "full").
Proof.
  unfold post_api_stories. case_decide as Hvalid; [| done].
  destruct Hvalid as [_ Hv]. intros Hrun.
  destruct (create_story_inv _ _ _ _ _ Hrun)
    as (pages & d & story_id & s' & _ & _ & _ & -> & _ & _ & _ & _ & Hvar & Hprice & _).
  by rewrite !lookup_insert_ne.
Qed.

(** C10: when the request's tone is absent or empty the created story's
    [tone] is "doux", and when its language is empty the story's [language]
    is "fr". *)
Theorem created_story_defaults req variant (w w' : world db) doc :
  create_story req variant w = (Ok doc, w') →
  ((tone req = None ∨ tone req = Some "") → doc !! "tone" = Some (VStr "doux")) ∧
  (language req = "" → doc !! "language" = Some (VStr "fr")).
Proof.
  intros Hrun.
  destruct (create_story_inv _ _ _ _ _ Hrun)
    as (pages & d & story_id & s' & _ & _ & _ & -> & _ & Htone & Hlang & _).
  rewrite !lookup_insert_ne by done. split.
  - intros [Ht | Ht]; by rewrite Htone, Ht.
  - intros Hl. by rewrite Hlang, Hl.
Qed.

(** A tone or language that is not empty is stored as given. *)
Lemma created_story_keeps_given req variant (w w' : world db) doc t :
  create_story req variant w = (Ok doc, w') →
  (tone req = Some t → t ≠ "" → doc !! "tone" = Some (VStr t)) ∧
  (language req ≠ "" → doc !! "language" = Some (VStr (language req))).
Proof.
  intros Hrun.
  destruct (create_story_inv _ _ _ _ _ Hrun)
    as (pages & d & story_id & s' & _ & _ & _ & -> & _ & Htone & Hlang & _).
  rewrite !lookup_insert_ne by done. split.
  - intros Ht Hne. rewrite Htone, Ht. simpl. by rewrite decide_False.
  - intros Hne. rewrite Hlang. simpl. by rewrite decide_False.
Qed.

(** ** Reading one story *)

(** A failure of the store is raised as it is. *)
Lemma get_story_store_failure story_id oid (w : world db) e s' :
  ObjectId_new story_id = Some oid →
  get_documents "story" {[ "_id" := VObjectId oid ]} 1 (store w) = (Raise e, s') →
  (get_story story_id w).1 = Raise e.
Proof.
  intros Hoid Hfind.
  unfold get_story, mbind, M_bind, call_get_documents. rewrite Hoid. simpl.
  by rewrite Hfind.
Qed.

(** C6: reading a story by an identifier the store's identifier type
    rejects fails with the bad-request condition (400) and leaves the world
    as it was: no call to the store is made.  Reading by an accepted
    identifier for which the store finds no document fails with the
    not-found condition (404), after that one query.  The two conditions
    differ. *)
Theorem get_story_failures story_id (w : world db) :
  (ObjectId_new story_id = None →
   get_story story_id w = (Raise (HTTPException 400 "Invalid story id"), w)) ∧
  (∀ oid s',
     ObjectId_new story_id = Some oid →
     get_documents "story" {[ "_id" := VObjectId oid ]} 1 (store w) = (Ok [], s') →
     get_story story_id w =
       (Raise (HTTPException 404 "Story not found"),
        {| store := s';
           calls := calls w ++ [GetDocuments "story" {[ "_id" := VObjectId oid ]} 1] |})) ∧
  HTTPException 400 "Invalid story id" ≠ HTTPException 404 "Story not found".
Proof.
  split_and!.
  - intros Hoid. unfold get_story, mbind, M_bind. by rewrite Hoid.
  - intros oid s' Hoid Hfind.
    unfold get_story, mbind, M_bind, call_get_documents. rewrite Hoid. simpl.
    by rewrite Hfind.
  - done.
Qed.

End endpoint_properties.

(** * The theorems at concrete requests *)

Lemma generate_pages_count_and_numbers_witness :
  0 ≤ 3 ∧
  ∃ pages, _generate_pages (strlower := ascii_lower) lea 3 = Ok pages ∧
    Z.of_nat (length pages) = 3 ∧
    page_number <$> pages = Z.of_nat <$> seq 1 (Z.to_nat 3).
Proof.
  split; [lia |].
  apply (generate_pages_count_and_numbers (strlower := ascii_lower) lea 3). lia.
Defined.

(** End-to-end scenario 2: page 7 of the full story repeats page 1. *)
Lemma beat_cycle_period_6_witness :
  ∃ pages p q,
    _generate_pages (strlower := ascii_lower) lea 12 = Ok pages ∧
    pages !! Z.to_nat (1 - 1) = Some p ∧
    pages !! Z.to_nat (1 + 6 - 1) = Some q ∧
    page_number p = 1 ∧ page_number q = 1 + 6 ∧
    text p = text q.
Proof.
  apply (beat_cycle_period_6 (strlower := ascii_lower) lea 12 1); lia.
Defined.

Lemma page_text_is_beat_with_theme_witness :
  1 ≤ 7 ≤ 12 ∧
  ∃ pages p,
    _generate_pages (strlower := ascii_lower) lea 12 = Ok pages ∧
    pages !! Z.to_nat (7 - 1) = Some p ∧
    page_number p = 7 ∧
    text p = "Léa, 5 ans, adore l'univers pirates. Un soir, une petite lueur vient chuchoter son prénom...".
Proof.
  split; [lia |].
  pose proof (page_text_is_beat_with_theme (strlower := ascii_lower) lea 12 7) as Hpage.
  destruct Hpage as (pages & p & beat & Hgen & Hp & Hnum & _ & Hbeat & Htext & _); [lia |].
  exists pages, p. split_and!; try done.
  vm_compute in Hbeat. injection Hbeat as <-.
  rewrite Htext. vm_compute. reflexivity.
Defined.

Lemma image_for_deterministic_witness :
  _image_seed "pirates" 1 ≠ _image_seed "pirates" 2 ∧
  _image_for "pirates" 1 ≠ _image_for "pirates" 2.
Proof.
  apply (image_for_deterministic "pirates" 1 2). lia.
Defined.

Lemma title_from_theme_witness :
  _title_from (strlower := ascii_lower) tom = "Tom et L'aventure merveilleuse".
Proof.
  apply (title_from_theme (strlower := ascii_lower) tom).
  apply (bool_decide_unpack _). vm_compute. reflexivity.
Defined.

Lemma returns_inv {db A} (run : result A * world db) :
  returns run = true → ∃ a w', run = (Ok a, w').
Proof. destruct run as [[a | e] w']; [eauto | done]. Qed.

(** End-to-end scenario 2: the full variant of a request for 12 pages. *)
Lemma create_story_page_count_witness :
  ∃ doc w', ref_create_story lea "full" empty_world = (Ok doc, w') ∧
  ∃ n pages_data,
    doc !! "pages" = Some (VInt n) ∧
    doc !! "pages_data" = Some (VList pages_data) ∧
    Z.of_nat (length pages_data) = n ∧
    ("full" = "preview" → n = 3) ∧
    ("full" = "full" → n = clamp (pages lea) 6 20).
Proof.
  destruct (returns_inv (ref_create_story lea "full" empty_world))
    as (doc & w' & Hrun); [vm_compute; reflexivity |].
  exists doc, w'. split; [exact Hrun |].
  exact (create_story_page_count (strlower := ascii_lower) (database := mem_database)
           lea "full" empty_world w' doc Hrun).
Defined.

Lemma created_story_price_and_variant_witness :
  ∃ doc w', ref_post_api_stories lea (Some "full") empty_world = (Ok doc, w') ∧
    doc !! "price_cents" = Some (VInt 1000) ∧
    doc !! "variant" = Some (VStr "full").
Proof.
  destruct (returns_inv (ref_post_api_stories lea (Some "full") empty_world))
    as (doc & w' & Hrun); [vm_compute; reflexivity |].
  exists doc, w'. split; [exact Hrun |].
  destruct (created_story_price_and_variant (strlower := ascii_lower)
              (database := mem_database) lea (Some "full") empty_world w' doc Hrun)
    as (Hprice & Hvariant & _).
  exact (conj Hprice Hvariant).
Defined.

Lemma created_story_defaults_witness :
  ∃ doc w', ref_create_story tom "preview" empty_world = (Ok doc, w') ∧
    doc !! "tone" = Some (VStr "doux") ∧
    doc !! "language" = Some (VStr "fr").
Proof.
  destruct (returns_inv (ref_create_story tom "preview" empty_world))
    as (doc & w' & Hrun); [vm_compute; reflexivity |].
  exists doc, w'. split; [exact Hrun |].
  destruct (created_story_defaults (strlower := ascii_lower) (database := mem_database)
              tom "preview" empty_world w' doc Hrun) as (Htone & Hlanguage).
  split; [apply Htone; left; reflexivity | apply Hlanguage; reflexivity].
Defined.

(** End-to-end scenarios 3 and 4: a badly formed identifier, and a
    well-formed identifier of no stored story. *)
Lemma get_story_failures_witness :
  ref_get_story "not-an-id" empty_world =
    (Raise (HTTPException 400 "Invalid story id"), empty_world) ∧
  (ref_get_story "000000000000000000000001" empty_world).1 =
    Raise (HTTPException 404 "Story not found").
Proof.
  split.
  - apply (get_story_failures (bson := hex_bson) (database := mem_database)
             "not-an-id" empty_world).
    vm_compute. reflexivity.
  - destruct (get_story_failures (bson := hex_bson) (database := mem_database)
                "000000000000000000000001" empty_world) as (_ & Hnotfound & _).
    unfold ref_get_story.
    rewrite (Hnotfound {| binary := [0; 0; 0; 0; 0; 0; 0; 0; 0; 0; 0; 1]%N |}
               (store empty_world)); [reflexivity | | ]; vm_compute; reflexivity.
Defined.

(** ** The end-to-end scenarios, run *)

(** Scenario 1: the preview of Léa's pirate story. *)
Example scenario_preview :
  let run := ref_post_api_stories lea (Some "preview") empty_world in
  returned_field run "pages" = Some (VInt 3) ∧
  returned_field run "title" = Some (VStr "Léa et Le trésor des vagues d'or") ∧
  returned_field run "id" = Some (VStr "000000000000000000000001") ∧
  length (calls run.2) = 1%nat.
Proof. vm_compute. split_and!; reflexivity. Qed.

(** Scenario 2: the full story has 12 pages. *)
Example scenario_full :
  returned_field (ref_post_api_stories lea (Some "full") empty_world) "pages"
    = Some (VInt 12).
Proof. vm_compute. reflexivity. Qed.

(** A variant outside the pattern, or a page count out of range, is
    rejected before any story is built. *)
Example scenario_rejected :
  ref_post_api_stories lea (Some "draft") empty_world
    = (Raise RequestValidationError, empty_world) ∧
  ref_post_api_stories
    {| child_name := "Léa"; age := 5; theme := "pirates"; tone := None;
       language := "fr"; pages := 21 |} None empty_world
    = (Raise RequestValidationError, empty_world).
Proof. split; vm_compute; reflexivity. Qed.

(** When the store is down, creation raises the store's failure. *)
Example scenario_store_down :
  raised (ref_create_story lea "preview" down_world)
    = Some (StoreUnavailable "Database not available").
Proof. vm_compute. reflexivity. Qed.

(** A created story is read back under its identifier, which replaces the
    store's own field; another identifier is not found. *)
Example scenario_read_back :
  let w := (ref_create_story lea "preview" empty_world).2 in
  let run := ref_get_story "000000000000000000000001" w in
  returned_field run "id" = Some (VStr "000000000000000000000001") ∧
  returned_field run "_id" = None ∧
  returned_field run "pages" = Some (VInt 3) ∧
  raised (ref_get_story "000000000000000000000002" w)
    = Some (HTTPException 404 "Story not found").
Proof. vm_compute. split_and!; reflexivity. Qed.

(** The title is looked up by the lowercased theme. *)
Example title_upper_case :
  _title_from (strlower := ascii_lower)
    {| child_name := "Léa"; age := 5; theme := "JUNGLE"; tone := None;
       language := "fr"; pages := 12 |} = "Léa et Le coeur de la forêt magique".
Proof. vm_compute. reflexivity. Qed.

(** The placeholder is replaced wherever it stands in the finished beat,
    also inside a child name. *)
Example placeholder_in_name :
  match _generate_pages (strlower := ascii_lower)
          {| child_name := "{theme}"; age := 5; theme := "Pirates"; tone := Some "";
             language := "fr"; pages := 12 |} 2 with
  | Ok ps => text <$> ps
  | Raise _ => []
  end =
  [ "pirates, 5 ans, adore l'univers pirates. Un soir, une petite lueur vient chuchoter son prénom...";
    "La lueur ouvre un passage secret. pirates respire doucement, son coeur bat fort mais doux." ].
Proof. vm_compute. reflexivity. Qed.

Example str_replace_examples :
  str_replace "a{theme}b{theme}" "{theme}" "xy" = "axybxy" ∧
  str_replace "aaa" "aa" "b" = "ba" ∧
  str_replace "abc" "" "-" = "-a-b-c-".
Proof. split_and!; reflexivity. Qed.

Example py_index_examples :
  py_index [1; 2; 3] (-1) = Ok 3 ∧ py_index [1; 2; 3] 3 = Raise IndexError ∧
  py_index [1; 2; 3] 0 = Ok 1 ∧ py_index [1; 2; 3] (-4) = Raise IndexError.
Proof. split_and!; reflexivity. Qed.

(** * Further properties of the generator *)

Lemma image_for_inj (theme : string) : Inj (=) (=) (_image_for theme).
Proof.
  intros i j Heq. unfold _image_for, _image_seed in Heq.
  apply String.app_inj, string_app_inv_tail in Heq.
  apply String.app_inj, (String.app_inj "-") in Heq.
  by apply (inj pretty).
Qed.

Section generator_more.
Context {strlower : StrLower}.

(** X1: a page count of zero or less gives the empty list of pages, not
    an exception. *)
Theorem generate_pages_nonpositive req n :
  n ≤ 0 → _generate_pages req n = Ok [].
Proof.
  intros Hn. rewrite generate_pages_closed.
  by replace (Z.to_nat n) with 0%nat by lia.
Qed.

(** X2: the pages of a shorter story are the first pages of a longer one
    for the same request: a preview shows the first pages of the full
    story. *)
Theorem generate_pages_prefix req n m :
  n ≤ m →
  ∃ ps qs, _generate_pages req n = Ok ps ∧ _generate_pages req m = Ok qs ∧
    ps = take (Z.to_nat n) qs.
Proof.
  intros Hnm. eexists _, _.
  split; [apply generate_pages_closed |]. split; [apply generate_pages_closed |].
  rewrite <- !fmap_take, take_seq. by replace (_ `min` _)%nat with (Z.to_nat n) by lia.
Qed.

(** X3: every page carries the image of its own page number under the
    lowercased theme, and no two pages of a story share an image URL. *)
Theorem generate_pages_images req n :
  ∃ ps, _generate_pages req n = Ok ps ∧
    Forall (λ p, image_url p = _image_for (str_lower (theme req)) (page_number p)) ps ∧
    NoDup (image_url <$> ps).
Proof.
  eexists. split; [apply generate_pages_closed |]. split.
  - apply Forall_fmap, Forall_forall. by intros.
  - rewrite <- !list_fmap_compose.
    apply NoDup_fmap_2; [| apply NoDup_seq].
    intros i j Heq. simpl in Heq. apply image_for_inj in Heq. lia.
Qed.

(** X4: every page text is one of the six beats of the request with the
    placeholder replaced: a story of any length uses no other text. *)
Theorem generate_pages_texts req n :
  ∃ ps, _generate_pages req n = Ok ps ∧
    Forall (λ p, text p ∈
      (λ b : Z * string, str_replace b.2 "{theme}" (str_lower (theme req))) <$> beats_of req) ps.
Proof.
  eexists. split; [apply generate_pages_closed |].
  apply Forall_fmap, Forall_forall. intros i _.
  destruct (lookup_lt_is_Some_2 (beats_of req) (Z.to_nat ((i - 1) `mod` 6)))
    as [beat Hbeat].
  { unfold beats_of. rewrite beats_length.
    pose proof (Z.mod_pos_bound (i - 1) 6). lia. }
  unfold compose, page_at. cbn [text]. rewrite Hbeat.
  apply (list_elem_of_fmap_2 (λ b : Z * string, str_replace b.2 "{theme}" _)).
  by eapply list_elem_of_lookup_2.
Qed.

End generator_more.

Lemma generate_pages_nonpositive_witness :
  _generate_pages (strlower := ascii_lower) lea (-2) = Ok [].
Proof. apply (generate_pages_nonpositive (strlower := ascii_lower) lea (-2)). lia. Defined.

Lemma generate_pages_prefix_witness :
  ∃ ps qs, _generate_pages (strlower := ascii_lower) lea 3 = Ok ps ∧
    _generate_pages (strlower := ascii_lower) lea 12 = Ok qs ∧
    ps = take (Z.to_nat 3) qs.
Proof. apply (generate_pages_prefix (strlower := ascii_lower) lea 3 12). lia. Defined.

(** ** Image seeds across themes *)

Lemma pretty_N_char_not_dash (x : N) : pretty_N_char x ≠ "-"%char.
Proof. unfold pretty_N_char. repeat case_match; intros ?; discriminate. Qed.

Lemma pretty_N_go_dash_free (x : N) (s : string) :
  dash_free s → dash_free (pretty_N_go x s).
Proof.
  revert s. induction (N.lt_wf_0 x) as [x _ IH]. intros s Hs.
  destruct (decide (x = 0%N)) as [-> | Hx].
  - by rewrite pretty_N_go_0.
  - rewrite pretty_N_go_step by lia. apply IH.
    + apply N.div_lt; lia.
    + split; [apply pretty_N_char_not_dash | done].
Qed.

Lemma str_of_int_dash_free (n : Z) : 0 ≤ n → dash_free (str_of_int n).
Proof.
  intros Hn. destruct n as [| p | p]; [by split | | lia].
  change (dash_free (pretty_N_go (N.pos p) "")).
  by apply pretty_N_go_dash_free.
Qed.

Lemma dash_free_no_dash (a b : string) : ¬ dash_free (a +:+ "-" +:+ b).
Proof.
  induction a as [| c a IH]; intros Hfree.
  - by destruct Hfree as [Hne _].
  - destruct Hfree as [_ Hfree]. by apply IH.
Qed.

(** The last [-] of a seed separates the theme from the page number. *)
Lemma seed_split (a b d1 d2 : string) :
  dash_free d1 → dash_free d2 →
  a +:+ "-" +:+ d1 = b +:+ "-" +:+ d2 → a = b ∧ d1 = d2.
Proof.
  intros H1 H2. revert b.
  induction a as [| c a IH]; intros [| c' b] Heq.
  - split; [done |]. by apply (String.app_inj "-").
  - change (String "-" d1 = String c' (b +:+ "-" +:+ d2)) in Heq.
    injection Heq as _ ->. by destruct (dash_free_no_dash b d2).
  - change (String c (a +:+ "-" +:+ d1) = String "-" d2) in Heq.
    injection Heq as _ <-. by destruct (dash_free_no_dash a d1).
  - change (String c (a +:+ "-" +:+ d1) = String c' (b +:+ "-" +:+ d2)) in Heq.
    injection Heq as -> Heq. destruct (IH b Heq) as [-> ->]. done.
Qed.

(** X5: for page numbers that are not negative, the seed and the URL
    determine both the theme and the page: two stories share an image only
    when they have the same lowercased theme, and then only on the same
    page. *)
Theorem image_for_inj_theme_page theme1 theme2 i j :
  0 ≤ i → 0 ≤ j →
  _image_for theme1 i = _image_for theme2 j →
  theme1 = theme2 ∧ i = j.
Proof.
  intros Hi Hj Heq. unfold _image_for, _image_seed in Heq.
  apply String.app_inj, string_app_inv_tail in Heq.
  apply seed_split in Heq as [-> Heq]; [| by apply str_of_int_dash_free ..].
  split; [done |]. by apply (inj pretty).
Qed.

Lemma image_for_inj_theme_page_witness :
  "pirates" = "pirates" ∧ 3 = 3.
Proof.
  apply (image_for_inj_theme_page "pirates" "pirates" 3 3); [lia | lia | reflexivity].
Defined.

(** With a negative page number the seed is ambiguous. *)
Example image_seed_negative_page :
  _image_for "a" (-1) = _image_for "a-" 1.
Proof. reflexivity. Qed.

(** * Further properties of story creation *)

Section creation_more.
Context {strlower : StrLower} {bson : Bson} {db : Type} {database : Database db}.

(** Every run of [create_story] makes one call to the store, with a
    document that has the request's fields and no [id] yet. *)
Lemma create_story_run req variant (w : world db) :
  ∃ pages d,
    _generate_pages req (target_pages_of req variant) = Ok pages ∧
    d !! "id" = None ∧
    d !! "title" = Some (VStr (_title_from req)) ∧
    d !! "child_name" = Some (VStr (child_name req)) ∧
    d !! "age" = Some (VInt (age req)) ∧
    d !! "theme" = Some (VStr (theme req)) ∧
    d !! "pages" = Some (VInt (target_pages_of req variant)) ∧
    d !! "pages_data" = Some (VList (model_dump <$> pages)) ∧
    create_story req variant w =
      match create_document "story" d (store w) with
      | (Ok story_id, s') =>
          (Ok (<["id" := VStr story_id]> d),
           {| store := s'; calls := calls w ++ [CreateDocument "story" d] |})
      | (Raise e, s') =>
          (Raise e, {| store := s'; calls := calls w ++ [CreateDocument "story" d] |})
      end.
Proof.
  unfold create_story, mbind, M_bind, lift, call_create_document.
  rewrite generate_pages_closed.
  set (pages := page_at _ _ <$> _).
  match goal with |- context [create_document "story" ?d0 (store w)] => set (d := d0) end.
  exists pages, d. split_and!; try reflexivity.
  by destruct (create_document "story" d (store w)) as [[story_id | e] s'].
Qed.

(** X6: a successful creation has made exactly one call to the store,
    with a document that has no [id]; the document returned is that
    document with the identifier the store gave under [id]. *)
Theorem create_story_stores_then_tags req variant (w w' : world db) doc :
  create_story req variant w = (Ok doc, w') →
  ∃ d story_id,
    create_document "story" d (store w) = (Ok story_id, store w') ∧
    calls w' = calls w ++ [CreateDocument "story" d] ∧
    d !! "id" = None ∧
    doc = <["id" := VStr story_id]> d ∧
    delete "id" doc = d.
Proof.
  destruct (create_story_run req variant w)
    as (pages & d & _ & Hid & _ & _ & _ & _ & _ & _ & ->).
  destruct (create_document "story" d (store w)) as [[story_id | e] s'] eqn:Hstore;
    intros Heq; [| done].
  injection Heq as <- <-. exists d, story_id. split_and!; try done.
  by rewrite delete_insert_eq, delete_id.
Qed.

(** X7: a failed creation has made exactly one call to the store, and
    raises what that call raised: the call is not repeated and the
    exception is not replaced. *)
Theorem create_story_failure_single_call req variant (w w' : world db) e :
  create_story req variant w = (Raise e, w') →
  ∃ d,
    create_document "story" d (store w) = (Raise e, store w') ∧
    calls w' = calls w ++ [CreateDocument "story" d].
Proof.
  destruct (create_story_run req variant w)
    as (pages & d & _ & _ & _ & _ & _ & _ & _ & _ & ->).
  destruct (create_document "story" d (store w)) as [[story_id | e'] s'] eqn:Hstore;
    intros Heq; [done |].
  injection Heq as -> <-. by exists d.
Qed.

(** X8: the created story keeps the child's name, the age and the theme
    as the request gives them (the theme is not lowercased there), and its
    title is the derived title. *)
Theorem create_story_request_fields req variant (w w' : world db) doc :
  create_story req variant w = (Ok doc, w') →
  doc !! "child_name" = Some (VStr (child_name req)) ∧
  doc !! "age" = Some (VInt (age req)) ∧
  doc !! "theme" = Some (VStr (theme req)) ∧
  doc !! "title" = Some (VStr (_title_from req)).
Proof.
  destruct (create_story_run req variant w)
    as (pages & d & _ & _ & Htitle & Hname & Hage & Htheme & _ & _ & ->).
  destruct (create_document "story" d (store w)) as [[story_id | e] s'];
    intros Heq; [| done].
  injection Heq as <- <-. by rewrite !lookup_insert_ne.
Qed.

(** X9: through the endpoint, a full story has exactly the number of
    pages the request asks for: the request is within 6..20, so the clamp
    changes nothing. *)
Theorem post_full_pages_as_requested req (w w' : world db) doc :
  post_api_stories req (Some "full") w = (Ok doc, w') →
  6 ≤ pages req ≤ 20 ∧
  doc !! "pages" = Some (VInt (pages req)) ∧
  ∃ pages_data, doc !! "pages_data" = Some (VList pages_data) ∧
    Z.of_nat (length pages_data) = pages req.
Proof.
  unfold post_api_stories. case_decide as Hvalid; [| done].
  destruct Hvalid as [[_ Hpages] _]. simpl.
  destruct (create_story_run req "full" w)
    as (ps & d & Hgen & _ & _ & _ & _ & _ & Hp & Hpd & ->).
  destruct (create_document "story" d (store w)) as [[story_id | e] s'];
    intros Heq; [| done].
  injection Heq as <- <-. rewrite !lookup_insert_ne by done.
  assert (target_pages_of req "full" = pages req) as Htarget.
  { unfold target_pages_of. rewrite decide_False by done. lia. }
  rewrite Htarget in *. split; [done |]. split; [done |].
  exists (model_dump <$> ps). split; [done |].
  rewrite generate_pages_closed in Hgen. injection Hgen as <-.
  rewrite !length_fmap, length_seq. lia.
Qed.

End creation_more.

Section creation_pages.
Context {strlower : StrLower} {bson : Bson} {db : Type} {database : Database db}.

(** X10: entry [i] of the created story's [pages_data] (1 <= i <= page
    count) is a dictionary of exactly the three fields of a page: its
    number [i], the text of the generated page, and the image of the
    lowercased theme and [i]. *)
Theorem created_pages_data_entries req variant (w w' : world db) doc i :
  create_story req variant w = (Ok doc, w') →
  1 ≤ i ≤ target_pages_of req variant →
  ∃ pages_data entry,
    doc !! "pages_data" = Some (VList pages_data) ∧
    pages_data !! Z.to_nat (i - 1) = Some (VDict entry) ∧
    dom entry = {[ "page_number"; "text"; "image_url" ]} ∧
    entry !! "page_number" = Some (VInt i) ∧
    entry !! "text" =
      Some (VStr (text (page_at (beats_of req) (str_lower (theme req)) i))) ∧
    entry !! "image_url" = Some (VStr (_image_for (str_lower (theme req)) i)).
Proof.
  intros Hrun Hi.
  destruct (create_story_run req variant w)
    as (ps & d & Hgen & _ & _ & _ & _ & _ & _ & Hpd & Heq).
  rewrite Heq in Hrun.
  destruct (create_document "story" d (store w)) as [[story_id | e] s']; [| done].
  injection Hrun as <- <-.
  destruct (generate_pages_lookup req (target_pages_of req variant) i Hi)
    as (ps' & Hgen' & Hp).
  rewrite Hgen in Hgen'. injection Hgen' as <-.
  eexists _, _. rewrite lookup_insert_ne by done.
  split; [exact Hpd |]. split.
  { rewrite list_lookup_fmap, Hp. reflexivity. }
  split_and!; reflexivity.
Qed.

(** X11: the pages of the preview of a request are the first three pages
    of its full story. *)
Theorem preview_is_prefix_of_full req (w1 w1' w2 w2' : world db) preview full :
  create_story req "preview" w1 = (Ok preview, w1') →
  create_story req "full" w2 = (Ok full, w2') →
  ∃ pp pf,
    preview !! "pages_data" = Some (VList pp) ∧
    full !! "pages_data" = Some (VList pf) ∧
    pp = take 3 pf.
Proof.
  intros Hp Hf.
  destruct (create_story_run req "preview" w1)
    as (ps & d & Hgen & _ & _ & _ & _ & _ & _ & Hpd & Heq).
  rewrite Heq in Hp.
  destruct (create_document "story" d (store w1)) as [[story_id | e] s']; [| done].
  injection Hp as <- <-.
  destruct (create_story_run req "full" w2)
    as (qs & d' & Hgen' & _ & _ & _ & _ & _ & _ & Hpd' & Heq').
  rewrite Heq' in Hf.
  destruct (create_document "story" d' (store w2)) as [[story_id' | e'] s'']; [| done].
  injection Hf as <- <-.
  exists (model_dump <$> ps), (model_dump <$> qs).
  rewrite !lookup_insert_ne by done. split; [done |]. split; [done |].
  rewrite generate_pages_closed in Hgen, Hgen'.
  injection Hgen as <-. injection Hgen' as <-.
  rewrite <- !fmap_take, take_seq.
  change (target_pages_of req "preview") with 3.
  assert (6 ≤ target_pages_of req "full").
  { unfold target_pages_of. rewrite decide_False by done. lia. }
  by replace (3 `min` _)%nat with (Z.to_nat 3) by lia.
Qed.

End creation_pages.

(** * Properties of the reading endpoints *)

Section reading.
Context {bson : Bson} {db : Type} {database : Database db}.

(** Both endpoints treat a stored document alike. *)
Lemma tag_then_strip (d : document) :
  (if decide (is_Some (<["id" := VStr (py_str (default VNone (d !! "_id")))]> d !! "_id"))
   then delete "_id" (<["id" := VStr (py_str (default VNone (d !! "_id")))]> d)
   else <["id" := VStr (py_str (default VNone (d !! "_id")))]> d) = with_id d.
Proof.
  unfold with_id. case_decide as Hin; [done |].
  symmetry. apply delete_id. by apply eq_None_not_Some.
Qed.

Lemma with_id_fields (d : document) :
  with_id d !! "_id" = None ∧
  with_id d !! "id" = Some (VStr (py_str (default VNone (d !! "_id")))) ∧
  ∀ k, k ≠ "id" → k ≠ "_id" → with_id d !! k = d !! k.
Proof.
  unfold with_id. split_and!.
  - apply lookup_delete_eq.
  - rewrite lookup_delete_ne by done. apply lookup_insert_eq.
  - intros k Hid H_id. by rewrite lookup_delete_ne, lookup_insert_ne.
Qed.

Lemma list_stories_loop_closed (docs result : list document) :
  list_stories_loop docs result = result ++ (with_id <$> docs).
Proof.
  revert result. induction docs as [| d docs IH]; intros result.
  - by rewrite app_nil_r.
  - cbn [list_stories_loop]. cbv zeta.
    rewrite (tag_then_strip d), IH, <- app_assoc. done.
Qed.

Lemma get_story_run story_id oid (w : world db) :
  ObjectId_new story_id = Some oid →
  get_story story_id w =
    let w' s := {| store := s;
                   calls := calls w ++ [GetDocuments "story" {[ "_id" := VObjectId oid ]} 1] |} in
    match get_documents "story" {[ "_id" := VObjectId oid ]} 1 (store w) with
    | (Ok [], s) => (Raise (HTTPException 404 "Story not found"), w' s)
    | (Ok (d :: _), s) => (Ok (with_id d), w' s)
    | (Raise e, s) => (Raise e, w' s)
    end.
Proof.
  intros Hoid. unfold get_story, mbind, M_bind, call_get_documents.
  rewrite Hoid. simpl.
  destruct (get_documents _ _ _ _) as [[[| d rest] | e] s]; try done.
  cbv zeta. by rewrite (tag_then_strip d).
Qed.

Lemma list_stories_run limit (w : world db) :
  list_stories limit w =
    let w' s := {| store := s; calls := calls w ++ [GetDocuments "story" ∅ limit] |} in
    match get_documents "story" ∅ limit (store w) with
    | (Ok docs, s) => (Ok {[ "items" := VList (VDict <$> (with_id <$> docs)) ]}, w' s)
    | (Raise e, s) => (Raise e, w' s)
    end.
Proof.
  unfold list_stories, mbind, M_bind, call_get_documents. simpl.
  destruct (get_documents _ _ _ _) as [[docs | e] s]; [| done].
  by rewrite list_stories_loop_closed.
Qed.

(** X12: when the store finds a document for the identifier, [get_story]
    returns the first one found with its [_id] removed, its [id] set to
    the text of that [_id] (of [None] when it had none), and every other
    field as stored. *)
Theorem get_story_found story_id oid (w : world db) d rest s' :
  ObjectId_new story_id = Some oid →
  get_documents "story" {[ "_id" := VObjectId oid ]} 1 (store w) = (Ok (d :: rest), s') →
  ∃ doc, (get_story story_id w).1 = Ok doc ∧
    doc !! "_id" = None ∧
    doc !! "id" = Some (VStr (py_str (default VNone (d !! "_id")))) ∧
    ∀ k, k ≠ "id" → k ≠ "_id" → doc !! k = d !! k.
Proof.
  intros Hoid Hfind. rewrite (get_story_run _ _ _ Hoid), Hfind.
  exists (with_id d). split; [done |]. apply with_id_fields.
Qed.

(** X13: [list_stories] returns, under [items], one entry per document
    the store found, in the store's order; each entry is the document with
    its [_id] removed, its [id] set to the text of that [_id], and every
    other field as stored. *)
Theorem list_stories_items limit (w : world db) docs s' :
  get_documents "story" ∅ limit (store w) = (Ok docs, s') →
  ∃ items,
    (list_stories limit w).1 = Ok {[ "items" := VList (VDict <$> items) ]} ∧
    Forall2 (λ d item,
      item !! "_id" = None ∧
      item !! "id" = Some (VStr (py_str (default VNone (d !! "_id")))) ∧
      ∀ k, k ≠ "id" → k ≠ "_id" → item !! k = d !! k) docs items.
Proof.
  intros Hfind. rewrite list_stories_run, Hfind.
  exists (with_id <$> docs). split; [done |].
  apply Forall2_fmap_r, Forall2_same_length_lookup_2; [done |].
  intros i d d' Hd Hd'. rewrite Hd in Hd'. injection Hd' as <-.
  apply with_id_fields.
Qed.

(** X14: whatever the store answers, [list_stories] makes exactly one
    call to it, the query of the collection "story" with an empty filter
    and the given limit; when that query raises, [list_stories] raises the
    same exception. *)
Theorem list_stories_single_query limit (w : world db) :
  calls (list_stories limit w).2 = calls w ++ [GetDocuments "story" ∅ limit] ∧
  ∀ e s', get_documents "story" ∅ limit (store w) = (Raise e, s') →
          (list_stories limit w).1 = Raise e.
Proof.
  rewrite list_stories_run. split.
  - by destruct (get_documents _ _ _ _) as [[docs | e] s].
  - intros e s' Hfind. by rewrite Hfind.
Qed.

(** X15: [get_story] never writes to the store: it makes no call when the
    identifier is rejected, and otherwise exactly one call, a query for
    that identifier with limit 1. *)
Theorem get_story_read_only story_id (w : world db) :
  match ObjectId_new story_id with
  | None => calls (get_story story_id w).2 = calls w
  | Some oid =>
      calls (get_story story_id w).2 =
        calls w ++ [GetDocuments "story" {[ "_id" := VObjectId oid ]} 1]
  end.
Proof.
  destruct (ObjectId_new story_id) as [oid |] eqn:Hoid.
  - rewrite (get_story_run _ _ _ Hoid).
    by destruct (get_documents _ _ _ _) as [[[| d rest] | e] s].
  - unfold get_story, mbind, M_bind. by rewrite Hoid.
Qed.

(** X16: the two reading endpoints agree: the entry [list_stories] gives
    for a stored document is the document [get_story] returns when the
    store finds that document first. *)
Theorem list_and_get_agree story_id oid limit (w w2 : world db) d rest docs i s1 s2 :
  ObjectId_new story_id = Some oid →
  get_documents "story" {[ "_id" := VObjectId oid ]} 1 (store w) = (Ok (d :: rest), s1) →
  get_documents "story" ∅ limit (store w2) = (Ok docs, s2) →
  docs !! i = Some d →
  ∃ doc items,
    (get_story story_id w).1 = Ok doc ∧
    (list_stories limit w2).1 = Ok {[ "items" := VList (VDict <$> items) ]} ∧
    items !! i = Some doc.
Proof.
  intros Hoid Hget Hlist Hd.
  rewrite (get_story_run _ _ _ Hoid), Hget, list_stories_run, Hlist.
  exists (with_id d), (with_id <$> docs). split_and!; [done | done |].
  by rewrite list_lookup_fmap, Hd.
Qed.

End reading.

(** * Properties of the diagnostic endpoint *)

Lemma utf8_take_length (n : nat) (s : string) :
  (utf8_length (utf8_take n s) ≤ n)%nat.
Proof.
  revert n. induction s as [| c s IH]; intros n; simpl; [lia |].
  destruct (utf8_continuation c) eqn:Hc; simpl; rewrite ?Hc; [apply IH |].
  destruct n as [| n]; simpl; rewrite ?Hc; [lia |]. specialize (IH n). lia.
Qed.

Lemma utf8_take_all (n : nat) (s : string) :
  (utf8_length s ≤ n)%nat → utf8_take n s = s.
Proof.
  revert n. induction s as [| c s IH]; intros n; simpl; [done |].
  destruct (utf8_continuation c); intros Hlen.
  - f_equal. by apply IH.
  - destruct n as [| n]; [lia |]. f_equal. apply IH. lia.
Qed.

Lemma utf8_take_prefix (n : nat) (s : string) :
  ∃ rest, s = utf8_take n s +:+ rest.
Proof.
  revert n. induction s as [| c s IH]; intros n; simpl; [by exists "" |].
  destruct (utf8_continuation c).
  - destruct (IH n) as [rest Hrest]. exists rest.
    change (String c s = String c (utf8_take n s +:+ rest)). by rewrite <- Hrest.
  - destruct n as [| n]; [by exists (String c s) |].
    destruct (IH n) as [rest Hrest]. exists rest.
    change (String c s = String c (utf8_take n s +:+ rest)). by rewrite <- Hrest.
Qed.

(** X17: the fields [database_url] and [database_name] of the response
    tell only whether the environment variables DATABASE_URL and
    DATABASE_NAME are set and not empty: what the handle is, and what its
    name is, does not show in them. *)
Theorem test_database_env_fields db env :
  test_database db env !! "database_url" =
    Some (VStr (if getenv_truthy env "DATABASE_URL" then "✅ Set" else "❌ Not Set")) ∧
  test_database db env !! "database_name" =
    Some (VStr (if getenv_truthy env "DATABASE_NAME" then "✅ Set" else "❌ Not Set")).
Proof.
  unfold test_database. split.
  - rewrite lookup_insert_ne by done. apply lookup_insert_eq.
  - apply lookup_insert_eq.
Qed.

Lemma dom_insert_listed (m : document) (k : string) (v : value) (ks : list string) :
  k ∈ ks → dom m = list_to_set ks → dom (<[k:=v]> m) = list_to_set ks.
Proof.
  intros Hk Hdom. rewrite dom_insert_L, Hdom.
  by apply subseteq_union_1_L, singleton_subseteq_l, elem_of_list_to_set.
Qed.

(** X18: the response always has the same six fields, and reports the
    backend as running, whatever the handle and the environment. *)
Theorem test_database_shape db env :
  dom (test_database db env) = list_to_set response_fields ∧
  test_database db env !! "backend" = Some (VStr "✅ Running").
Proof.
  unfold test_database, test_database_try. split.
  - destruct db as [[[| name | msg] [msg' | names]] |];
      cbn [db_name list_collection_names];
      repeat match goal with
             | |- dom (<[_:=_]> _) = _ =>
                 apply dom_insert_listed;
                 [apply (bool_decide_unpack _); vm_compute; reflexivity |]
             end;
      rewrite dom_list_to_map_L; reflexivity.
  - destruct db as [[[| name | msg] [msg' | names]] |]; reflexivity.
Qed.

(** X19: the response lists at most ten collections, the first ones the
    handle lists; it lists none when there is no handle. *)
Theorem test_database_collections db env :
  ∃ names,
    test_database db env !! "collections" = Some (VList (VStr <$> names)) ∧
    (length names ≤ 10)%nat ∧
    (∀ all, handle_works db all → names = take 10 all) ∧
    (db = None → names = []).
Proof.
  unfold test_database, test_database_try, handle_works.
  destruct db as [[[| name | msg] [msg' | all]] |].
  all: try (exists []; split; [reflexivity |]; split; [simpl; lia |]; split; [| done];
            intros all' (h & [= <-] & Hname & Hlist); cbn in Hname, Hlist;
            solve [done | by destruct (Hname msg)]).
  all: exists (take 10 all); split; [reflexivity |]; split;
    [rewrite length_take; lia |]; split; [| done];
    intros all' (h & [= <-] & _ & [= <-]); done.
Qed.



Lemma test_database_status db env :
  test_database db env !! "database" =
    Some (VStr
      match db with
      | None => "⚠️  Available but not initialized"
      | Some h =>
          match db_name h with
          | AttributeRaises msg => "❌ Error: " +:+ utf8_take 50 msg
          | _ =>
              match list_collection_names h with
              | inr _ => "✅ Connected & Working"
              | inl msg => "⚠️  Connected but Error: " +:+ utf8_take 50 msg
              end
          end
      end).
Proof. by destruct db as [[[| name | msg] [msg' | names]] |]. Qed.

(** X20: the response reports the database as connected and working
    exactly when there is a handle, reading its name raises nothing and
    listing its collections succeeds. *)
Theorem test_database_working_iff db env :
  test_database db env !! "database" = Some (VStr "✅ Connected & Working") ↔
  ∃ names, handle_works db names.
Proof.
  rewrite test_database_status. unfold handle_works. split.
  - destruct db as [[[| name | msg] [msg' | names]] |]; cbn [db_name list_collection_names];
      intros Heq;
      first [ by (eexists; eexists; split_and!;
                  [reflexivity | intros ?; discriminate | reflexivity])
            | exfalso;
              apply (f_equal (λ v, match v with
                                   | Some (VStr s) => String.get 1 s
                                   | _ => None
                                   end)) in Heq;
              vm_compute in Heq; discriminate Heq ].
  - intros (names & h & -> & Hname & Hlist). rewrite Hlist.
    destruct (db_name h) as [| name | msg]; [done | done |]. by destruct (Hname msg).
Qed.

(** X21: when listing the collections raises, the response shows at most
    the first 50 characters of the exception's message (all of it when it
    is that short), still reports the connection as made, and lists no
    collection. *)
Theorem test_database_listing_error h msg env :
  (∀ m, db_name h ≠ AttributeRaises m) →
  list_collection_names h = inl msg →
  ∃ shown,
    test_database (Some h) env !! "database" =
      Some (VStr ("⚠️  Connected but Error: " +:+ shown)) ∧
    (utf8_length shown ≤ 50)%nat ∧
    (∃ rest, msg = shown +:+ rest) ∧
    ((utf8_length msg ≤ 50)%nat → shown = msg) ∧
    test_database (Some h) env !! "connection_status" = Some (VStr "Connected") ∧
    test_database (Some h) env !! "collections" = Some (VList []).
Proof.
  intros Hname Hlist. exists (utf8_take 50 msg). split_and!.
  - rewrite test_database_status, Hlist.
    destruct (db_name h) as [| name | m]; [done | done |]. by destruct (Hname m).
  - apply utf8_take_length.
  - apply utf8_take_prefix.
  - apply utf8_take_all.
  - destruct h as [[| name | m] listing]; cbn in Hlist; subst listing;
      [reflexivity | reflexivity |]. by destruct (Hname m).
  - destruct h as [[| name | m] listing]; cbn in Hlist; subst listing;
      [reflexivity | reflexivity |]. by destruct (Hname m).
Qed.

(** * The further properties at concrete inputs *)

Lemma raised_inv {db A} (run : result A * world db) e :
  raised run = Some e → ∃ w', run = (Raise e, w').
Proof. destruct run as [[a | e'] w']; [done |]. intros [= ->]. eauto. Qed.

Lemma create_story_stores_then_tags_witness :
  ∃ doc w' d story_id,
    ref_create_story lea "preview" empty_world = (Ok doc, w') ∧
    calls w' = calls empty_world ++ [CreateDocument "story" d] ∧
    d !! "id" = None ∧
    doc = <["id" := VStr story_id]> d.
Proof.
  destruct (returns_inv (ref_create_story lea "preview" empty_world))
    as (doc & w' & Hrun); [vm_compute; reflexivity |].
  destruct (create_story_stores_then_tags (strlower := ascii_lower)
              (database := mem_database) lea "preview" empty_world w' doc Hrun)
    as (d & story_id & _ & Hcalls & Hid & Hdoc & _).
  by exists doc, w', d, story_id.
Defined.

Lemma create_story_failure_single_call_witness :
  ∃ w' d,
    ref_create_story lea "preview" down_world =
      (Raise (StoreUnavailable "Database not available"), w') ∧
    calls w' = calls down_world ++ [CreateDocument "story" d].
Proof.
  destruct (raised_inv (ref_create_story lea "preview" down_world)
              (StoreUnavailable "Database not available"))
    as (w' & Hrun); [vm_compute; reflexivity |].
  destruct (create_story_failure_single_call (strlower := ascii_lower)
              (database := mem_database) lea "preview" down_world w' _ Hrun)
    as (d & _ & Hcalls).
  by exists w', d.
Defined.

Lemma create_story_request_fields_witness :
  ∃ doc w', ref_create_story tom "preview" empty_world = (Ok doc, w') ∧
    doc !! "theme" = Some (VStr "Dinosaures") ∧
    doc !! "title" = Some (VStr (_title_from (strlower := ascii_lower) tom)).
Proof.
  destruct (returns_inv (ref_create_story tom "preview" empty_world))
    as (doc & w' & Hrun); [vm_compute; reflexivity |].
  destruct (create_story_request_fields (strlower := ascii_lower)
              (database := mem_database) tom "preview" empty_world w' doc Hrun)
    as (_ & _ & Htheme & Htitle).
  by exists doc, w'.
Defined.

Lemma post_full_pages_as_requested_witness :
  ∃ doc w', ref_post_api_stories lea (Some "full") empty_world = (Ok doc, w') ∧
    doc !! "pages" = Some (VInt 12).
Proof.
  destruct (returns_inv (ref_post_api_stories lea (Some "full") empty_world))
    as (doc & w' & Hrun); [vm_compute; reflexivity |].
  destruct (post_full_pages_as_requested (strlower := ascii_lower)
              (database := mem_database) lea empty_world w' doc Hrun)
    as (_ & Hpages & _).
  by exists doc, w'.
Defined.

Lemma created_pages_data_entries_witness :
  ∃ doc w' pages_data entry,
    ref_create_story lea "preview" empty_world = (Ok doc, w') ∧
    doc !! "pages_data" = Some (VList pages_data) ∧
    pages_data !! Z.to_nat (2 - 1) = Some (VDict entry) ∧
    entry !! "page_number" = Some (VInt 2).
Proof.
  destruct (returns_inv (ref_create_story lea "preview" empty_world))
    as (doc & w' & Hrun); [vm_compute; reflexivity |].
  destruct (created_pages_data_entries (strlower := ascii_lower)
              (database := mem_database) lea "preview" empty_world w' doc 2 Hrun)
    as (pages_data & entry & Hdata & Hentry & _ & Hnumber & _);
    [vm_compute; split; discriminate |].
  by exists doc, w', pages_data, entry.
Defined.

Lemma preview_is_prefix_of_full_witness :
  ∃ preview w1 full w2 pp pf,
    ref_create_story lea "preview" empty_world = (Ok preview, w1) ∧
    ref_create_story lea "full" empty_world = (Ok full, w2) ∧
    preview !! "pages_data" = Some (VList pp) ∧
    full !! "pages_data" = Some (VList pf) ∧
    pp = take 3 pf.
Proof.
  destruct (returns_inv (ref_create_story lea "preview" empty_world))
    as (preview & w1 & Hp); [vm_compute; reflexivity |].
  destruct (returns_inv (ref_create_story lea "full" empty_world))
    as (full & w2 & Hf); [vm_compute; reflexivity |].
  destruct (preview_is_prefix_of_full (strlower := ascii_lower)
              (database := mem_database) lea empty_world w1 empty_world w2
              preview full Hp Hf) as (pp & pf & Hpp & Hpf & Htake).
  by exists preview, w1, full, w2, pp, pf.
Defined.

Lemma get_story_found_witness :
  ∃ doc, (ref_get_story "000000000000000000000001" one_story_world).1 = Ok doc ∧
    doc !! "_id" = None ∧
    doc !! "id" = Some (VStr "000000000000000000000001") ∧
    doc !! "child_name" = Some (VStr "Léa").
Proof.
  destruct (get_story_found (bson := hex_bson) (database := mem_database)
              "000000000000000000000001" first_oid one_story_world stored_story []
              (store one_story_world))
    as (doc & Hrun & H_id & Hid & Hother); [vm_compute; reflexivity .. |].
  exists doc. split_and!; [done | done | exact Hid |].
  by rewrite Hother.
Defined.

Lemma list_stories_items_witness :
  ∃ items,
    (ref_list_stories 20 one_story_world).1 = Ok {[ "items" := VList (VDict <$> items) ]} ∧
    length items = 1%nat.
Proof.
  destruct (list_stories_items (bson := hex_bson) (database := mem_database)
              20 one_story_world [stored_story] (store one_story_world))
    as (items & Hrun & Hitems); [vm_compute; reflexivity |].
  exists items. split; [done |]. by rewrite <- (Forall2_length _ _ _ Hitems).
Defined.

Lemma list_stories_single_query_witness :
  (ref_list_stories 5 down_world).1 = Raise (StoreUnavailable "Database not available").
Proof.
  apply (list_stories_single_query (bson := hex_bson) (database := mem_database)
           5 down_world) with (s' := store down_world).
  vm_compute. reflexivity.
Defined.

Lemma list_and_get_agree_witness :
  ∃ doc items,
    (ref_get_story "000000000000000000000001" one_story_world).1 = Ok doc ∧
    (ref_list_stories 20 one_story_world).1
      = Ok {[ "items" := VList (VDict <$> items) ]} ∧
    items !! 0%nat = Some doc.
Proof.
  apply (list_and_get_agree (bson := hex_bson) (database := mem_database)
           "000000000000000000000001" first_oid 20 one_story_world one_story_world
           stored_story [] [stored_story] 0%nat
           (store one_story_world) (store one_story_world));
    vm_compute; reflexivity.
Defined.

Lemma test_database_collections_witness :
  test_database (Some (listing_handle ["story"; "users"])) ∅ !! "collections"
    = Some (VList [VStr "story"; VStr "users"]).
Proof.
  destruct (test_database_collections (Some (listing_handle ["story"; "users"])) ∅)
    as (names & Hfield & _ & Hnames & _).
  rewrite Hfield, (Hnames ["story"; "users"]); [reflexivity |].
  eexists. split_and!; [reflexivity | intros ?; discriminate | reflexivity].
Defined.

Lemma test_database_listing_error_witness :
  test_database (Some (failing_handle "boom")) ∅ !! "database"
    = Some (VStr "⚠️  Connected but Error: boom").
Proof.
  destruct (test_database_listing_error (failing_handle "boom") "boom" ∅)
    as (shown & Hfield & _ & _ & Hshort & _);
    [intros ?; discriminate | reflexivity |].
  rewrite Hfield, Hshort; [reflexivity | vm_compute; lia].
Defined.
